(** * Tiled: the scripted map format bridge (src/tiled/scriptedmapformat.cpp)

    A shallow embedding of [ScriptFile] and [ScriptedMapFormat].  The C++
    methods become state-passing functions: the script engine's object heap,
    the error channel of the script manager and the files on disk are explicit
    arguments and results.  Qt classes the code calls ([QJSValue], [QFile],
    [QTextStream], [QIODevice]) are modelled by the part of their documented
    behaviour the methods observe. *)

From Stdlib Require Import ZArith Bool Strings.Byte Ascii Lia.
From stdpp Require Import gmap strings list pretty.

(** ** QString helpers *)

Definition LF : ascii := "010"%char.
Definition CR : ascii := "013"%char.

Fixpoint string_drop (n : nat) (s : string) : string :=
  match n, s with
  | O, _ => s
  | S _, EmptyString => EmptyString
  | S n', String _ s' => string_drop n' s'
  end.

Fixpoint string_take (n : nat) (s : string) : string :=
  match n, s with
  | O, _ => EmptyString
  | S _, EmptyString => EmptyString
  | S n', String c s' => String c (string_take n' s')
  end.

(** [QString::endsWith(const QString &, Qt::CaseSensitive)]: the haystack must
    be at least as long as the needle and its last [size needle] code units
    must equal the needle, unit by unit. *)
Definition endsWith (s suffix : string) : bool :=
  if (String.length s <? String.length suffix)%nat then false
  else String.eqb (string_drop (String.length s - String.length suffix) s) suffix.

(** [QString::prepend(QChar)]. *)
Definition prepend (c : ascii) (s : string) : string := String c s.

(** [tr()]: the source text itself (no translation catalogue is loaded). *)
Definition tr (s : string) : string := s.

(** Does a text contain a carriage return? *)
Fixpoint hasCR (s : string) : bool :=
  match s with
  | EmptyString => false
  | String c s' => Ascii.eqb c CR || hasCR s'
  end.

(** What [QTextStream] does to outgoing text on Windows when the device is in
    text mode: every line feed becomes carriage return + line feed. *)
Fixpoint crlf (s : string) : string :=
  match s with
  | EmptyString => EmptyString
  | String c s' =>
      if Ascii.eqb c LF then String CR (String LF (crlf s')) else String c (crlf s')
  end.

(** What [QTextStream] does to incoming text when the device is in text mode,
    on every platform: carriage returns are dropped. *)
Fixpoint stripCR (s : string) : string :=
  match s with
  | EmptyString => EmptyString
  | String c s' => if Ascii.eqb c CR then stripCR s' else String c (stripCR s')
  end.

(** ** Flags *)

(** [QFlags::testFlag]. *)
Definition testFlag (flags f : Z) : bool :=
  (Z.land flags f =? f)%Z && (negb (f =? 0)%Z || (flags =? f)%Z).

(** [QIODevice::OpenModeFlag], the three values the file uses. *)
Definition ReadOnly : Z := 1.
Definition WriteOnly : Z := 2.
Definition Text : Z := 16.

(** Modelled from the spec: [FileFormat::Capability] (fileformat.h is not
    embedded here).  Capability flags are the two independent bits Read and
    Write; both may be set. *)
Definition NoCapability : Z := 0.
Definition Read : Z := 1.
Definition Write : Z := 2.

(** ** The file system and the I/O environment *)

Inductive Platform := Unix | Windows.

(** [QFileDevice::FileError], the values that occur here. *)
Inductive FileError := NoError | OpenError | WriteError | RenameError.

(** The environment decides which operations of a save fail; a failing
    operation comes with the error string the device then reports. *)
Record IOEnv := {
  platform : Platform;
  open_fault : string -> option string;
  write_fault : string -> option string;
  commit_fault : string -> option string
}.

Module SaveFile.
(** Modelled from the spec: the atomic save primitive ([SaveFile], savefile.h,
    is not embedded here).  A save holds the destination path, the mode it was
    opened in, the content of its temporary staging location, and the error
    state of its device. *)
Record t := {
  name : string;
  openMode : Z;
  staged : list byte;
  error : FileError;
  errorString : string
}.

(** Modelled from the spec: [SaveFile file(fileName)]; nothing is acquired and
    nothing on disk changes before [open]. *)
Definition new (fileName : string) : t :=
  {| name := fileName; openMode := 0; staged := [];
     error := NoError; errorString := "Unknown error" |}.

(** Modelled from the spec: a failing operation puts the device in an error
    state and records the I/O error string. *)
Definition fail (file : t) (e : FileError) (msg : string) : t :=
  {| name := name file; openMode := openMode file; staged := staged file;
     error := e; errorString := msg |}.

(** Modelled from the spec: open-for-write in a given mode acquires an empty
    temporary staging location; the destination is not touched. *)
Definition open (file : t) (mode : Z) (io : IOEnv) : bool * t :=
  match open_fault io (name file) with
  | Some msg => (false, fail file OpenError msg)
  | None =>
      (true, {| name := name file; openMode := mode; staged := [];
                error := error file; errorString := errorString file |})
  end.

(** Modelled from the spec: [file.device()->write(bytes)] appends the bytes to
    the staging location, or fails and leaves the device in an error state. *)
Definition write (file : t) (bytes : list byte) (io : IOEnv) : t :=
  match write_fault io (name file) with
  | Some msg => fail file WriteError msg
  | None =>
      {| name := name file; openMode := openMode file;
         staged := staged file ++ bytes;
         error := error file; errorString := errorString file |}
  end.

(** Modelled from the spec: [QTextStream out(file.device()); out << text],
    flushed when the stream goes out of scope: the text, with the line ends of
    the platform when the device is in text mode, is written to the device. *)
Definition writeText (file : t) (text : string) (io : IOEnv) : t :=
  let text' :=
    match platform io with
    | Windows => if testFlag (openMode file) Text then crlf text else text
    | Unix => text
    end in
  write file (String.list_byte_of_string text') io.

(** Modelled from the spec: commit is the atomicity boundary.  It replaces the
    destination by the staged content, or fails and leaves the destination as
    it was; a save that goes out of scope without a successful commit drops
    its staging location. *)
Definition commit (file : t) (io : IOEnv) (fs : gmap string (list byte))
  : bool * t * gmap string (list byte) :=
  match commit_fault io (name file) with
  | Some msg => (false, fail file RenameError msg, fs)
  | None => (true, file, <[name file := staged file]> fs)
  end.
End SaveFile.

(** ** ScriptFile *)

(** What a read of a file depends on besides the files on disk: the paths that
    cannot be opened for reading, each with the error string the device then
    reports, and what the text stream makes of the bytes of a file, that is,
    its codec together with its detection of a byte order mark.  A text is
    held in the encoding of the stream. *)
Record ReadEnv := {
  open_denied : string -> option string;
  decodeText : list byte -> string
}.

Module ScriptFile.
Record t := { mFilePath : string; mError : string }.

Definition new (filePath : string) : t :=
  {| mFilePath := filePath; mError := "" |}.

(** [QFile::open(ReadOnly ...)] on a path: the content when the file is there
    and can be opened, the device's error string when it cannot be opened or
    is not there. *)
Definition open (env : ReadEnv) (fs : gmap string (list byte)) (path : string)
  : list byte + string :=
  match open_denied env path with
  | Some err => inr err
  | None =>
      match fs !! path with
      | Some bytes => inl bytes
      | None => inr "No such file or directory"
      end
  end.

Definition readAsText (env : ReadEnv) (file : t) (fs : gmap string (list byte))
  : string * t :=
  match open env fs (mFilePath file) with
  | inl bytes => (stripCR (decodeText env bytes), file)
  | inr err => ("", {| mFilePath := mFilePath file; mError := err |})
  end.

Definition readAsBinary (env : ReadEnv) (file : t)
    (fs : gmap string (list byte)) : list byte * t :=
  match open env fs (mFilePath file) with
  | inl bytes => (bytes, file)
  | inr err => ([], {| mFilePath := mFilePath file; mError := err |})
  end.
End ScriptFile.

(** ** Script values *)

(** [EditableMap]: the script-facing wrapper around a host map. *)
Record EditableMap (Map : Type) := { EditableMap_map : Map }.
Arguments Build_EditableMap {Map} _.
Arguments EditableMap_map {Map} _.

(** The [QObject]s a script value can wrap. *)
Inductive QObject (Map : Type) :=
| QEditableMap (editable : EditableMap Map)
| QScriptFile (file : ScriptFile.t)
| QOtherObject (id : positive).
Arguments QEditableMap {Map} _.
Arguments QScriptFile {Map} _.
Arguments QOtherObject {Map} _.

(** [QJSValue], by the kinds the adapter tells apart.  A number (the model
    has the integral ones) is observed only as "not a string, not binary
    data"; an Error object carries its [name] and its [message]; an
    ArrayBuffer carries its bytes.  A script object and a function are
    references into the engine's heap, where their properties live; a function
    is moreover callable, and its reference names its code. *)
Inductive QJSValue (Map : Type) :=
| JSUndefined
| JSNull
| JSBool (b : bool)
| JSNumber (n : Z)
| JSString (s : string)
| JSArrayBuffer (bytes : list byte)
| JSError (name message : string)
| JSFunction (f : positive)
| JSQObject (object : QObject Map)
| JSObject (l : positive).
Arguments JSUndefined {Map}.
Arguments JSNull {Map}.
Arguments JSBool {Map} _.
Arguments JSNumber {Map} _.
Arguments JSString {Map} _.
Arguments JSArrayBuffer {Map} _.
Arguments JSError {Map} _ _.
Arguments JSFunction {Map} _.
Arguments JSQObject {Map} _.
Arguments JSObject {Map} _.

(** The engine's heap: the properties of every script object. *)
Abbreviation Heap Map := (gmap positive (gmap string (QJSValue Map))).

(** The state of [ScriptManager::instance()]: the engine's heap and the errors
    raised so far through its error-reporting channel. *)
Record ScriptManager (Map : Type) := {
  objects : Heap Map;
  errors : list string
}.
Arguments Build_ScriptManager {Map} _ _.
Arguments objects {Map} _.
Arguments errors {Map} _.

(** The adapter.  It holds a reference to the descriptor, not a copy, and no
    capability flags. *)
Record ScriptedMapFormat (Map : Type) := {
  mShortName : string;
  mObject : QJSValue Map;
  mError : string
}.
Arguments Build_ScriptedMapFormat {Map} _ _ _.
Arguments mShortName {Map} _.
Arguments mObject {Map} _.
Arguments mError {Map} _.

(** The operations of an adapter, as a host calls them. *)
Inductive Operation (Map : Type) :=
| OpCapabilities
| OpNameFilter
| OpSupportsFile (fileName : string)
| OpRead (fileName : string)
| OpWrite (map : Map) (fileName : string) (options : Z).
Arguments OpCapabilities {Map}.
Arguments OpNameFilter {Map}.
Arguments OpSupportsFile {Map} _.
Arguments OpRead {Map} _.
Arguments OpWrite {Map} _ _ _.

(** What an operation hands back. *)
Inductive Outcome (Map : Type) :=
| OutFlags (flags : Z)
| OutString (s : string)
| OutBool (b : bool)
| OutMap (m : option Map).
Arguments OutFlags {Map} _.
Arguments OutString {Map} _.
Arguments OutBool {Map} _.
Arguments OutMap {Map} _.

(** What a call of [read] or [write] does to the adapter's error and to the
    script engine, step by step: [mError.clear()], the call of a script
    value, an assignment to [mError]. *)
Inductive Effect (Map : Type) :=
| ClearError
| Invoke (callee : QJSValue Map) (arguments : list (QJSValue Map))
| AssignError (message : string).
Arguments ClearError {Map}.
Arguments Invoke {Map} _ _.
Arguments AssignError {Map} _.

(** What [QJSValue::toString] yields for an Error object, the script
    language's [Error.prototype.toString]: the name, ": " and the message;
    the message alone when the name is empty, the name alone when the message
    is. *)
Definition errorText (name message : string) : string :=
  if String.eqb name "" then message
  else if String.eqb message "" then name
  else name +:+ ": " +:+ message.

Section Bridge.

(** The host's map model and its [clone()], the callables of the scripts (a
    callable sees its arguments, the files on disk and the heap; it yields a
    value and the heap it leaves behind), and the engine's string conversion
    of the values that are neither strings nor Error objects. *)
Context {Map : Type}.
Variable clone : Map -> Map.
Variable invoke :
  positive -> list (QJSValue Map) -> gmap string (list byte) -> Heap Map ->
  QJSValue Map * Heap Map.
Variable describe : QJSValue Map -> string.

(** *** QJSValue *)

Definition isString (v : QJSValue Map) : bool :=
  match v with JSString _ => true | _ => false end.

Definition isCallable (v : QJSValue Map) : bool :=
  match v with JSFunction _ => true | _ => false end.

Definition isError (v : QJSValue Map) : bool :=
  match v with JSError _ _ => true | _ => false end.

Definition toString (v : QJSValue Map) : string :=
  match v with
  | JSString s => s
  | JSError name message => errorText name message
  | _ => describe v
  end.

(** [QJSValue::toQObject]: [None] is the null pointer. *)
Definition toQObject (v : QJSValue Map) : option (QObject Map) :=
  match v with JSQObject o => Some o | _ => None end.

(** [qobject_cast<EditableMap*>]. *)
Definition qobject_cast_EditableMap (o : option (QObject Map))
  : option (EditableMap Map) :=
  match o with Some (QEditableMap e) => Some e | _ => None end.

(** [qjsvalue_cast<QByteArray>]: [None] is the null byte array. *)
Definition qjsvalue_cast_QByteArray (v : QJSValue Map) : option (list byte) :=
  match v with JSArrayBuffer bytes => Some bytes | _ => None end.

(** [QByteArray::isNull]. *)
Definition isNull (bytes : option (list byte)) : bool :=
  match bytes with None => true | Some _ => false end.

(** [QJSValue::property]: the property the heap holds for the object (or
    function) under that name; undefined for a name it does not have and for
    values that are not references into the heap. *)
Definition property (sm : ScriptManager Map) (v : QJSValue Map) (name : string)
  : QJSValue Map :=
  match v with
  | JSObject l | JSFunction l =>
      match objects sm !! l with
      | Some props => default JSUndefined (props !! name)
      | None => JSUndefined
      end
  | _ => JSUndefined
  end.

(** [QJSEngine::newQObject]. *)
Definition newQObject (o : QObject Map) : QJSValue Map := JSQObject o.

(** [QJSValue::call]: what is not a function is not called and yields
    undefined; a function runs to completion, and when it throws the thrown
    value is what the call yields. *)
Definition call (f : QJSValue Map) (arguments : list (QJSValue Map))
    (fs : gmap string (list byte)) (sm : ScriptManager Map)
  : QJSValue Map * ScriptManager Map :=
  match f with
  | JSFunction id =>
      let '(result, heap) := invoke id arguments fs (objects sm) in
      (result, {| objects := heap; errors := errors sm |})
  | _ => (JSUndefined, sm)
  end.

(** *** ScriptManager *)

(** Modelled from the spec: [ScriptManager::checkError] (scriptmanager.h is
    not embedded here) is the script environment's error predicate on the
    value a call returned. *)
Definition checkError (v : QJSValue Map) : bool := isError v.

(** Modelled from the spec: [ScriptManager::throwError] (scriptmanager.h is
    not embedded here) raises the message through the script environment's
    error-reporting channel. *)
Definition throwError (message : string) (sm : ScriptManager Map)
  : ScriptManager Map :=
  {| objects := objects sm; errors := errors sm ++ [message] |}.

(** *** ScriptedMapFormat *)

Definition setError (this : ScriptedMapFormat Map) (message : string)
  : ScriptedMapFormat Map :=
  {| mShortName := mShortName this; mObject := mObject this; mError := message |}.

(** Modelled from the spec: [PluginManager::addObject] (pluginmanager.h is not
    embedded here) adds the adapter to the process-wide registry. *)
Definition addObject (this : ScriptedMapFormat Map)
    (registry : list (ScriptedMapFormat Map)) : list (ScriptedMapFormat Map) :=
  registry ++ [this].

(** The constructor. *)
Definition construct (shortName : string) (object : QJSValue Map)
    (registry : list (ScriptedMapFormat Map))
  : ScriptedMapFormat Map * list (ScriptedMapFormat Map) :=
  let this := {| mShortName := shortName; mObject := object; mError := "" |} in
  (this, addObject this registry).

Definition capabilities (this : ScriptedMapFormat Map) (sm : ScriptManager Map)
  : Z :=
  let capabilities := NoCapability in
  let capabilities :=
    if isCallable (property sm (mObject this) "read")
    then Z.lor capabilities Read else capabilities in
  let capabilities :=
    if isCallable (property sm (mObject this) "write")
    then Z.lor capabilities Write else capabilities in
  capabilities.

Definition nameFilter (this : ScriptedMapFormat Map) (sm : ScriptManager Map)
  : string :=
  let name := toString (property sm (mObject this) "name") in
  let extension := toString (property sm (mObject this) "extension") in
  name +:+ " (*." +:+ extension +:+ ")".

Definition supportsFile (this : ScriptedMapFormat Map) (sm : ScriptManager Map)
    (fileName : string) : bool :=
  let extension := toString (property sm (mObject this) "extension") in
  let extension := prepend "." extension in
  endsWith fileName extension.

Definition read (this : ScriptedMapFormat Map) (fileName : string)
    (sm : ScriptManager Map) (fs : gmap string (list byte))
  : option Map * ScriptedMapFormat Map * ScriptManager Map :=
  let this := setError this "" in
  let readProperty := property sm (mObject this) "read" in
  let file := ScriptFile.new fileName in
  let arguments := [newQObject (QScriptFile file)] in
  let '(resultValue, sm) := call readProperty arguments fs sm in
  if checkError resultValue then
    (None, setError this (toString resultValue), sm)
  else
    match qobject_cast_EditableMap (toQObject resultValue) with
    | Some editableMap => (Some (clone (EditableMap_map editableMap)), this, sm)
    | None => (None, this, sm)
    end.

Definition write (this : ScriptedMapFormat Map) (map : Map) (fileName : string)
    (options : Z) (sm : ScriptManager Map) (io : IOEnv)
    (fs : gmap string (list byte))
  : bool * ScriptedMapFormat Map * ScriptManager Map * gmap string (list byte) :=
  let this := setError this "" in
  let editable := Build_EditableMap map in
  let writeProperty := property sm (mObject this) "write" in
  let arguments :=
    [newQObject (QEditableMap editable); JSString fileName; JSNumber options] in
  let '(resultValue, sm) := call writeProperty arguments fs sm in
  if checkError resultValue then
    (false, setError this (toString resultValue), sm, fs)
  else
    let isString := isString resultValue in
    let bytes :=
      if isString then None else qjsvalue_cast_QByteArray resultValue in
    if negb isString && isNull bytes then
      (false,
       setError this
         (tr "Invalid return value for 'write' (string or ArrayBuffer expected)"),
       sm, fs)
    else
      let file := SaveFile.new fileName in
      let mode := WriteOnly in
      let mode := if isString then Z.lor mode Text else mode in
      let '(opened, file) := SaveFile.open file mode io in
      if negb opened then
        (false, setError this (tr "Could not open file for writing."), sm, fs)
      else
        let file :=
          if isString then SaveFile.writeText file (toString resultValue) io
          else SaveFile.write file (default [] bytes) io in
        match SaveFile.error file with
        | NoError =>
            let '(committed, file, fs') := SaveFile.commit file io fs in
            if committed then (true, this, sm, fs')
            else (false, setError this (SaveFile.errorString file), sm, fs')
        | _ => (false, setError this (SaveFile.errorString file), sm, fs)
        end.

Definition nameError : string :=
  tr "Invalid map format object (requires string 'name' property)".
Definition extensionError : string :=
  tr "Invalid map format object (requires string 'extension' property)".
Definition functionError : string :=
  tr "Invalid map format object (requires a 'write' and/or 'read' function property)".

Definition validateMapFormatObject (value : QJSValue Map) (sm : ScriptManager Map)
  : bool * ScriptManager Map :=
  let nameProperty := property sm value "name" in
  let extensionProperty := property sm value "extension" in
  let writeProperty := property sm value "write" in
  let readProperty := property sm value "read" in
  if negb (isString nameProperty) then
    (false, throwError nameError sm)
  else if negb (isString extensionProperty) then
    (false, throwError extensionError sm)
  else if negb (isCallable writeProperty) && negb (isCallable readProperty) then
    (false, throwError functionError sm)
  else (true, sm).

(** Modelled from the spec: registration of a candidate descriptor (the caller
    of the validator is not embedded here).  The validator gates entry into
    the registry: the adapter is constructed and registered only for a
    candidate that passes, all or nothing. *)
Definition registerMapFormat (shortName : string) (value : QJSValue Map)
    (sm : ScriptManager Map) (registry : list (ScriptedMapFormat Map))
  : ScriptManager Map * list (ScriptedMapFormat Map) :=
  let '(valid, sm) := validateMapFormatObject value sm in
  if valid then (sm, snd (construct shortName value registry))
  else (sm, registry).

(** The invocation [read] makes: the descriptor's [read] property, called with
    a fresh file handle for the path as sole argument. *)
Definition invokeRead (this : ScriptedMapFormat Map) (fileName : string)
    (sm : ScriptManager Map) (fs : gmap string (list byte))
  : QJSValue Map * ScriptManager Map :=
  call (property sm (mObject this) "read")
    [newQObject (QScriptFile (ScriptFile.new fileName))] fs sm.

(** The invocation [write] makes: the descriptor's [write] property, called
    with the map's view, the path and the options as an integer. *)
Definition invokeWrite (this : ScriptedMapFormat Map) (map : Map)
    (fileName : string) (options : Z)
    (sm : ScriptManager Map) (fs : gmap string (list byte))
  : QJSValue Map * ScriptManager Map :=
  call (property sm (mObject this) "write")
    [newQObject (QEditableMap (Build_EditableMap map)); JSString fileName;
     JSNumber options] fs sm.

(** The steps of [read], in the order of its statements. *)
Definition readEffects (this : ScriptedMapFormat Map) (fileName : string)
    (sm : ScriptManager Map) (fs : gmap string (list byte))
  : list (Effect Map) :=
  let readProperty := property sm (mObject this) "read" in
  let arguments := [newQObject (QScriptFile (ScriptFile.new fileName))] in
  ClearError ::
  Invoke readProperty arguments ::
  (let resultValue := (call readProperty arguments fs sm).1 in
   if checkError resultValue then [AssignError (toString resultValue)] else []).

(** The steps of [write], in the order of its statements. *)
Definition writeEffects (this : ScriptedMapFormat Map) (map : Map)
    (fileName : string) (options : Z) (sm : ScriptManager Map) (io : IOEnv)
    (fs : gmap string (list byte)) : list (Effect Map) :=
  let writeProperty := property sm (mObject this) "write" in
  let arguments :=
    [newQObject (QEditableMap (Build_EditableMap map)); JSString fileName;
     JSNumber options] in
  ClearError ::
  Invoke writeProperty arguments ::
  (let resultValue := (call writeProperty arguments fs sm).1 in
   if checkError resultValue then [AssignError (toString resultValue)]
   else
     let isString := isString resultValue in
     let bytes :=
       if isString then None else qjsvalue_cast_QByteArray resultValue in
     if negb isString && isNull bytes then
       [AssignError
          (tr "Invalid return value for 'write' (string or ArrayBuffer expected)")]
     else
       let mode := if isString then Z.lor WriteOnly Text else WriteOnly in
       let '(opened, file) := SaveFile.open (SaveFile.new fileName) mode io in
       if negb opened then
         [AssignError (tr "Could not open file for writing.")]
       else
         let file :=
           if isString then SaveFile.writeText file (toString resultValue) io
           else SaveFile.write file (default [] bytes) io in
         match SaveFile.error file with
         | NoError =>
             let '(committed, file, _) := SaveFile.commit file io fs in
             if committed then []
             else [AssignError (SaveFile.errorString file)]
         | _ => [AssignError (SaveFile.errorString file)]
         end).

(** The stored error after a run of steps. *)
Fixpoint errorAfter (effects : list (Effect Map)) (stored : string) : string :=
  match effects with
  | [] => stored
  | ClearError :: rest => errorAfter rest ""
  | AssignError message :: rest => errorAfter rest message
  | Invoke _ _ :: rest => errorAfter rest stored
  end.

(** The stored error at the moment of each call of a script value, in the
    order of the calls. *)
Fixpoint errorAtInvocations (effects : list (Effect Map)) (stored : string)
  : list string :=
  match effects with
  | [] => []
  | ClearError :: rest => errorAtInvocations rest ""
  | AssignError message :: rest => errorAtInvocations rest message
  | Invoke _ _ :: rest => stored :: errorAtInvocations rest stored
  end.

(** One operation on an adapter, with everything it can change. *)
Definition perform (op : Operation Map) (io : IOEnv)
    (st : ScriptedMapFormat Map * ScriptManager Map * gmap string (list byte))
  : Outcome Map
    * (ScriptedMapFormat Map * ScriptManager Map * gmap string (list byte)) :=
  let '(this, sm, fs) := st in
  match op with
  | OpCapabilities => (OutFlags (capabilities this sm), st)
  | OpNameFilter => (OutString (nameFilter this sm), st)
  | OpSupportsFile fileName => (OutBool (supportsFile this sm fileName), st)
  | OpRead fileName =>
      let '(m, this, sm) := read this fileName sm fs in (OutMap m, (this, sm, fs))
  | OpWrite map fileName options =>
      let '(ok, this, sm, fs) := write this map fileName options sm io fs in
      (OutBool ok, (this, sm, fs))
  end.

(** A run of operations, one after the other. *)
Fixpoint performAll (ops : list (Operation Map)) (io : IOEnv)
    (st : ScriptedMapFormat Map * ScriptManager Map * gmap string (list byte))
  : ScriptedMapFormat Map * ScriptManager Map * gmap string (list byte) :=
  match ops with
  | [] => st
  | op :: ops' => performAll ops' io (snd (perform op io st))
  end.

(** The operations that are calls of [read] or [write]. *)
Definition isReadOrWrite (op : Operation Map) : bool :=
  match op with OpRead _ | OpWrite _ _ _ => true | _ => false end.

End Bridge.

(** ** A sample world

    A host whose maps are grids of tile ids, a descriptor for the extension
    "custom" with both callables, an empty candidate, and scripts that return
    a fixed value or change the descriptor. *)

Definition SampleMap : Type := list (list Z).

Definition sampleClone (m : SampleMap) : SampleMap := m.

Definition sampleDescribe (v : QJSValue SampleMap) : string :=
  match v with
  | JSUndefined => "undefined"
  | JSNull => "null"
  | JSBool true => "true"
  | JSBool false => "false"
  | JSNumber n => pretty n
  | _ => "[object Object]"
  end.

Definition sampleProperties : gmap string (QJSValue SampleMap) :=
  <["name" := JSString "Custom"]>
    (<["extension" := JSString "custom"]>
       (<["read" := JSFunction 11]> (<["write" := JSFunction 12]> ∅))).

Definition readOnlyProperties : gmap string (QJSValue SampleMap) :=
  <["name" := JSString "Custom"]>
    (<["extension" := JSString "custom"]> (<["read" := JSFunction 11]> ∅)).

(** The heap: the descriptor at 1, an empty object at 2, a descriptor with
    [read] only at 3, and the two functions, each with its own [name]. *)
Definition sampleManager : ScriptManager SampleMap :=
  {| objects :=
       <[1%positive := sampleProperties]>
         (<[2%positive := ∅]>
            (<[3%positive := readOnlyProperties]>
               (<[11%positive := <["name" := JSString "read"]> ∅]>
                  (<[12%positive := <["name" := JSString "write"]> ∅]> ∅))));
     errors := [] |}.

Definition sampleFormat : ScriptedMapFormat SampleMap :=
  {| mShortName := "custom"; mObject := JSObject 1; mError := "stale" |}.

Definition readOnlyFormat : ScriptedMapFormat SampleMap :=
  {| mShortName := "custom"; mObject := JSObject 3; mError := "" |}.

Definition sampleMap : SampleMap := [[1; 2]; [3; 4]]%Z.

(** A script that returns (or, for an Error object, throws) a fixed value. *)
Definition returning (v : QJSValue SampleMap) :
  positive -> list (QJSValue SampleMap) -> gmap string (list byte) ->
  Heap SampleMap -> QJSValue SampleMap * Heap SampleMap :=
  fun _ _ _ heap => (v, heap).

(** A script that removes the [read] property of the descriptor at 1. *)
Definition forgetRead :
  positive -> list (QJSValue SampleMap) -> gmap string (list byte) ->
  Heap SampleMap -> QJSValue SampleMap * Heap SampleMap :=
  fun _ _ _ heap => (JSUndefined, alter (delete "read") 1%positive heap).

Definition noFaults (os : Platform) : IOEnv :=
  {| platform := os;
     open_fault := fun _ => None;
     write_fault := fun _ => None;
     commit_fault := fun _ => None |}.

Definition diskFull : IOEnv :=
  {| platform := Unix;
     open_fault := fun _ => None;
     write_fault := fun _ => Some "No space left on device";
     commit_fault := fun _ => None |}.

Definition commitDenied : IOEnv :=
  {| platform := Unix;
     open_fault := fun _ => None;
     write_fault := fun _ => None;
     commit_fault := fun _ => Some "Permission denied" |}.

Definition oldContent : list byte := [x6f; x6c; x64].

Definition sampleFiles : gmap string (list byte) :=
  <["map.custom" := oldContent]> ∅.

(** A reader that opens every file and takes the bytes as the text. *)
Definition plainReader : ReadEnv :=
  {| open_denied := fun _ => None;
     decodeText := String.string_of_list_byte |}.

(** A reader whose codec is UTF-8: a byte order mark at the start of the
    bytes is not part of the text. *)
Definition utf8Reader : ReadEnv :=
  {| open_denied := fun _ => None;
     decodeText := fun bytes =>
       String.string_of_list_byte
         match bytes with
         | xef :: xbb :: xbf :: rest => rest
         | _ => bytes
         end |}.

(** A reader for which "map.custom" is there but cannot be opened. *)
Definition deniedReader : ReadEnv :=
  {| open_denied := fun path =>
       if String.eqb path "map.custom" then Some "Permission denied" else None;
     decodeText := String.string_of_list_byte |}.

(** The byte order mark, in UTF-8, followed by "A". *)
Definition textWithBOM : string :=
  String.string_of_list_byte [xef; xbb; xbf; x41].

(** The text "A", carriage return, line feed, "B". *)
Definition textWithCRLF : string := String "A" (String CR (String LF "B")).

(** * Properties *)

(** ** Strings *)

Lemma append_cons (c : ascii) (s t : string) :
  String c s +:+ t = String c (s +:+ t).
Proof. reflexivity. Qed.

Lemma length_append (s t : string) :
  String.length (s +:+ t) = String.length s + String.length t.
Proof.
  induction s as [|c s IH]; [reflexivity|].
  rewrite append_cons. simpl. now rewrite IH.
Qed.

Lemma string_take_drop (n : nat) (s : string) :
  string_take n s +:+ string_drop n s = s.
Proof.
  revert s. induction n as [|n IH]; intros [|c s]; try reflexivity.
  simpl. rewrite append_cons. now rewrite IH.
Qed.

Lemma string_drop_append (stem suffix : string) :
  string_drop (String.length stem) (stem +:+ suffix) = suffix.
Proof.
  induction stem as [|c stem IH]; [reflexivity|].
  rewrite append_cons. simpl. exact IH.
Qed.

Lemma endsWith_true_iff (s suffix : string) :
  endsWith s suffix = true <-> exists stem, s = stem +:+ suffix.
Proof.
  unfold endsWith. split.
  - destruct (Nat.ltb_spec (String.length s) (String.length suffix)) as [|Hle];
      [discriminate|].
    intros Heq%String.eqb_eq.
    exists (string_take (String.length s - String.length suffix) s).
    rewrite <- (string_take_drop (String.length s - String.length suffix) s) at 1.
    f_equal. exact Heq.
  - intros [stem ->]. rewrite length_append.
    destruct (Nat.ltb_spec (String.length stem + String.length suffix)
                (String.length suffix)) as [Hlt|_]; [lia|].
    replace (String.length stem + String.length suffix - String.length suffix)
      with (String.length stem) by lia.
    rewrite string_drop_append. apply String.eqb_refl.
Qed.

Lemma stripCR_without_CR (s : string) : hasCR s = false -> stripCR s = s.
Proof.
  induction s as [|c s IH]; [reflexivity|]. simpl.
  intros [Hc Hs]%orb_false_iff. rewrite Hc. now rewrite IH.
Qed.

Lemma stripCR_crlf (s : string) : hasCR s = false -> stripCR (crlf s) = s.
Proof.
  induction s as [|c s IH]; [reflexivity|]. simpl.
  intros [Hc Hs]%orb_false_iff.
  destruct (Ascii.eqb_spec c LF) as [->|_]; simpl.
  - now rewrite IH.
  - rewrite Hc. now rewrite IH.
Qed.

(** ** Flags *)

Lemma testFlag_capabilities (r w : bool) :
  let flags :=
    (if w then Z.lor (if r then Z.lor NoCapability Read else NoCapability) Write
     else if r then Z.lor NoCapability Read else NoCapability) in
  testFlag flags Read = r /\ testFlag flags Write = w.
Proof. destruct r, w; split; reflexivity. Qed.

Section BridgeProperties.

Context {Map : Type}.
Variable clone : Map -> Map.
Variable invoke :
  positive -> list (QJSValue Map) -> gmap string (list byte) -> Heap Map ->
  QJSValue Map * Heap Map.
Variable describe : QJSValue Map -> string.

Implicit Types (this : ScriptedMapFormat Map) (sm : ScriptManager Map).
Implicit Types (fs : gmap string (list byte)) (io : IOEnv).
Implicit Types (v resultValue : QJSValue Map) (fileName : string).

(** ** The three ways [read] ends *)

Lemma read_script_error this fileName sm fs v sm' :
  invokeRead invoke this fileName sm fs = (v, sm') ->
  checkError v = true ->
  read clone invoke describe this fileName sm fs
  = (None, setError this (toString describe v), sm').
Proof.
  unfold invokeRead, read. cbn [setError mObject].
  intros -> Herr. now rewrite Herr.
Qed.

Lemma read_map_view this fileName sm fs v sm' editable :
  invokeRead invoke this fileName sm fs = (v, sm') ->
  checkError v = false ->
  qobject_cast_EditableMap (toQObject v) = Some editable ->
  read clone invoke describe this fileName sm fs
  = (Some (clone (EditableMap_map editable)), setError this "", sm').
Proof.
  unfold invokeRead, read. cbn [setError mObject].
  intros -> Herr Hcast. now rewrite Herr, Hcast.
Qed.

Lemma read_other_value this fileName sm fs v sm' :
  invokeRead invoke this fileName sm fs = (v, sm') ->
  checkError v = false ->
  qobject_cast_EditableMap (toQObject v) = None ->
  read clone invoke describe this fileName sm fs = (None, setError this "", sm').
Proof.
  unfold invokeRead, read. cbn [setError mObject].
  intros -> Herr Hcast. now rewrite Herr, Hcast.
Qed.

(** ** The ways [write] ends *)

Lemma write_script_error this map fileName options sm io fs v sm' :
  invokeWrite invoke this map fileName options sm fs = (v, sm') ->
  checkError v = true ->
  write invoke describe this map fileName options sm io fs
  = (false, setError this (toString describe v), sm', fs).
Proof.
  unfold invokeWrite, write. cbn [setError mObject].
  intros -> Herr. now rewrite Herr.
Qed.

Lemma write_invalid_value this map fileName options sm io fs v sm' :
  invokeWrite invoke this map fileName options sm fs = (v, sm') ->
  checkError v = false ->
  isString v = false ->
  qjsvalue_cast_QByteArray v = None ->
  write invoke describe this map fileName options sm io fs
  = (false,
     setError this
       "Invalid return value for 'write' (string or ArrayBuffer expected)",
     sm', fs).
Proof.
  unfold invokeWrite, write. cbn [setError mObject].
  intros -> Herr Hstr Hbin. now rewrite Herr, Hstr, Hbin.
Qed.

Lemma write_open_failure this map fileName options sm io fs v sm' e :
  invokeWrite invoke this map fileName options sm fs = (v, sm') ->
  checkError v = false ->
  isString v = true \/ isNull (qjsvalue_cast_QByteArray v) = false ->
  open_fault io fileName = Some e ->
  write invoke describe this map fileName options sm io fs
  = (false, setError this "Could not open file for writing.", sm', fs).
Proof.
  unfold invokeWrite, write. cbn [setError mObject].
  intros -> Herr Hvalid Hopen. rewrite Herr.
  unfold SaveFile.open. cbn [SaveFile.name SaveFile.new]. rewrite Hopen.
  destruct Hvalid as [-> | Hbin]; [reflexivity|].
  destruct (isString v); [reflexivity|]. now rewrite Hbin.
Qed.

(** Once the staging location is acquired, the outcome is decided by the
    staged write and the commit. *)
Lemma write_staged this map fileName options sm io fs v sm' :
  invokeWrite invoke this map fileName options sm fs = (v, sm') ->
  checkError v = false ->
  isString v = true \/ isNull (qjsvalue_cast_QByteArray v) = false ->
  open_fault io fileName = None ->
  exists payload,
    payload =
      (if isString v then
         String.list_byte_of_string
           match platform io with
           | Windows => crlf (toString describe v)
           | Unix => toString describe v
           end
       else default [] (qjsvalue_cast_QByteArray v)) /\
    write invoke describe this map fileName options sm io fs
    = match write_fault io fileName with
      | Some e => (false, setError this e, sm', fs)
      | None =>
          match commit_fault io fileName with
          | Some e => (false, setError this e, sm', fs)
          | None => (true, setError this "", sm', <[fileName := payload]> fs)
          end
      end.
Proof.
  unfold invokeWrite, write. cbn [setError mObject].
  intros -> Herr Hvalid Hopen. rewrite Herr. eexists; split; [reflexivity|].
  unfold SaveFile.open. cbn [SaveFile.name SaveFile.new]. rewrite Hopen.
  assert (negb (isString v)
          && isNull (if isString v then None else qjsvalue_cast_QByteArray v)
          = false) as ->.
  { destruct Hvalid as [-> | Hbin]; [reflexivity|].
    destruct (isString v); [reflexivity|]. now rewrite Hbin. }
  cbn [negb].
  unfold SaveFile.writeText, SaveFile.write, SaveFile.commit, SaveFile.fail.
  cbn [SaveFile.name SaveFile.openMode SaveFile.staged SaveFile.error
       SaveFile.errorString].
  destruct (isString v).
  - destruct (write_fault io fileName) as [e|]; [reflexivity|].
    cbn [SaveFile.name SaveFile.openMode SaveFile.staged SaveFile.error
         SaveFile.errorString].
    destruct (commit_fault io fileName) as [e|]; [reflexivity|].
    destruct (platform io); reflexivity.
  - destruct (write_fault io fileName) as [e|]; [reflexivity|].
    cbn [SaveFile.name SaveFile.openMode SaveFile.staged SaveFile.error
         SaveFile.errorString].
    destruct (commit_fault io fileName) as [e|]; reflexivity.
Qed.

(** ** What every call of [write] and [read] leaves in place *)

Lemma write_failure_frame this map fileName options sm io fs this' sm' fs' :
  write invoke describe this map fileName options sm io fs
  = (false, this', sm', fs') ->
  fs' = fs.
Proof.
  unfold write. intros Hw. repeat case_match; simplify_eq; try reflexivity.
  all: unfold SaveFile.commit in *; repeat case_match; simplify_eq; reflexivity.
Qed.

Lemma write_mObject this map fileName options sm io fs :
  mObject (write invoke describe this map fileName options sm io fs).1.1.2
  = mObject this.
Proof. unfold write. repeat case_match; reflexivity. Qed.

Lemma read_mObject this fileName sm fs :
  mObject (read clone invoke describe this fileName sm fs).1.2 = mObject this.
Proof. unfold read. repeat case_match; reflexivity. Qed.

Lemma perform_mObject op io this sm fs :
  mObject (perform clone invoke describe op io (this, sm, fs)).2.1.1
  = mObject this.
Proof.
  destruct op as [| | f | f | m f o]; cbn [perform]; try reflexivity.
  - pose proof (read_mObject this f sm fs) as H.
    destruct (read clone invoke describe this f sm fs) as [[? ?] ?]. exact H.
  - pose proof (write_mObject this m f o sm io fs) as H.
    destruct (write invoke describe this m f o sm io fs) as [[[? ?] ?] ?].
    exact H.
Qed.

Lemma performAll_mObject ops io this sm fs :
  mObject (performAll clone invoke describe ops io (this, sm, fs)).1.1
  = mObject this.
Proof.
  revert this sm fs. induction ops as [|op ops IH]; intros this sm fs;
    [reflexivity|].
  cbn [performAll].
  pose proof (perform_mObject op io this sm fs) as H.
  destruct (perform clone invoke describe op io (this, sm, fs))
    as [out [[this1 sm1] fs1]].
  cbn [snd fst] in *. rewrite IH. exact H.
Qed.

Lemma perform_query_frame op io this sm fs :
  isReadOrWrite op = false ->
  (perform clone invoke describe op io (this, sm, fs)).2 = (this, sm, fs).
Proof. destruct op; [reflexivity..|discriminate|discriminate]. Qed.

Lemma setError_setError this e e' :
  setError (setError this e) e' = setError this e'.
Proof. reflexivity. Qed.

Lemma capabilities_flags this sm :
  testFlag (capabilities this sm) Read
  = isCallable (property sm (mObject this) "read")
  /\ testFlag (capabilities this sm) Write
    = isCallable (property sm (mObject this) "write").
Proof. unfold capabilities. apply testFlag_capabilities. Qed.

(** ** The write pipeline *)

(** C1.  When [write] has acquired its staging location and the staged write
    or the commit then fails with the I/O error string [e], [write] returns
    false, [lastError] is [e], and the files on disk, the destination among
    them, are exactly what they were before the call.  No failing [write]
    changes any file.  [write] returns true only when the commit of a save for
    the destination path succeeded, and the files on disk are then the ones
    that commit produced. *)
Theorem write_failure_leaves_destination this map fileName options sm io fs :
  (forall v sm' e,
      invokeWrite invoke this map fileName options sm fs = (v, sm') ->
      checkError v = false ->
      isString v = true \/ isNull (qjsvalue_cast_QByteArray v) = false ->
      open_fault io fileName = None ->
      write_fault io fileName = Some e \/
      (write_fault io fileName = None /\ commit_fault io fileName = Some e) ->
      write invoke describe this map fileName options sm io fs
      = (false, setError this e, sm', fs)
      /\ mError (write invoke describe this map fileName options sm io fs).1.1.2
         = e)
  /\ (forall this' sm' fs',
      write invoke describe this map fileName options sm io fs
      = (false, this', sm', fs') ->
      fs' = fs)
  /\ (forall this' sm' fs',
      write invoke describe this map fileName options sm io fs
      = (true, this', sm', fs') ->
      exists file,
        SaveFile.name file = fileName /\
        SaveFile.error file = NoError /\
        SaveFile.commit file io fs = (true, file, fs')).
Proof.
  split; [|split].
  - intros v sm' e Hcall Herr Hvalid Hopen Hfail.
    destruct (write_staged this map fileName options sm io fs v sm'
                Hcall Herr Hvalid Hopen) as (payload & _ & ->).
    destruct Hfail as [-> | [-> ->]]; split; reflexivity.
  - intros this' sm' fs'. apply write_failure_frame.
  - intros this' sm' fs'. unfold write.
    intros Hw. repeat case_match; simplify_eq.
    all: match goal with
         | H : SaveFile.commit ?f _ _ = (true, _, _) |- _ =>
             exists f; unfold SaveFile.commit in H |- *;
             unfold SaveFile.writeText, SaveFile.write, SaveFile.open in *;
             cbn [SaveFile.name SaveFile.new] in *;
             repeat case_match; simplify_eq; auto
         end.
Qed.

(** C2.  When the script's [write] returns, without raising, a value that is
    neither a string nor binary data, [write] returns false, [lastError] is
    the invalid-return-value message, and no file on disk is touched. *)
Theorem write_rejects_other_values
    this map fileName options sm io fs v sm' :
  invokeWrite invoke this map fileName options sm fs = (v, sm') ->
  checkError v = false ->
  isString v = false ->
  qjsvalue_cast_QByteArray v = None ->
  write invoke describe this map fileName options sm io fs
  = (false,
     setError this
       (tr "Invalid return value for 'write' (string or ArrayBuffer expected)"),
     sm', fs)
  /\ (write invoke describe this map fileName options sm io fs).1.1.1 = false
  /\ mError (write invoke describe this map fileName options sm io fs).1.1.2
     = "Invalid return value for 'write' (string or ArrayBuffer expected)"
  /\ (write invoke describe this map fileName options sm io fs).2 = fs.
Proof.
  intros Hcall Herr Hstr Hbin.
  rewrite (write_invalid_value this map fileName options sm io fs v sm'
             Hcall Herr Hstr Hbin).
  repeat split.
Qed.

(** C5, as amended.  After a successful [write], with the destination opened
    successfully for reading: a text [s] without carriage returns that the
    script returned is what [readAsText] reads back, provided the reading
    stream decodes the bytes written for [s] back to the text written (which
    is not so for a text that starts with a byte order mark); and binary data
    the script returned is what [readAsBinary] reads back, byte for byte.
    Neither read sets the handle's error. *)
Theorem written_file_reads_back
    (env : ReadEnv) this map fileName options sm io fs sm1 this' sm' fs' :
  write invoke describe this map fileName options sm io fs
  = (true, this', sm', fs') ->
  open_denied env fileName = None ->
  (forall s,
      invokeWrite invoke this map fileName options sm fs = (JSString s, sm1) ->
      hasCR s = false ->
      decodeText env
        (String.list_byte_of_string
           match platform io with Windows => crlf s | Unix => s end)
      = match platform io with Windows => crlf s | Unix => s end ->
      ScriptFile.readAsText env (ScriptFile.new fileName) fs'
      = (s, ScriptFile.new fileName))
  /\ (forall b,
      invokeWrite invoke this map fileName options sm fs
      = (JSArrayBuffer b, sm1) ->
      ScriptFile.readAsBinary env (ScriptFile.new fileName) fs'
      = (b, ScriptFile.new fileName)).
Proof.
  intros Hw Hread.
  assert (forall v, invokeWrite invoke this map fileName options sm fs = (v, sm1) ->
            checkError v = false ->
            isString v = true \/ isNull (qjsvalue_cast_QByteArray v) = false ->
            fs' !! fileName =
              Some (if isString v then
                      String.list_byte_of_string
                        match platform io with
                        | Windows => crlf (toString describe v)
                        | Unix => toString describe v
                        end
                    else default [] (qjsvalue_cast_QByteArray v))) as Hfile.
  { intros v Hcall Herr Hvalid.
    destruct (open_fault io fileName) as [e|] eqn:Hopen.
    { rewrite (write_open_failure this map fileName options sm io fs v sm1 e
                 Hcall Herr Hvalid Hopen) in Hw. discriminate. }
    destruct (write_staged this map fileName options sm io fs v sm1
                Hcall Herr Hvalid Hopen) as (payload & -> & Hw').
    rewrite Hw' in Hw.
    destruct (write_fault io fileName); [discriminate|].
    destruct (commit_fault io fileName); [discriminate|].
    injection Hw as _ _ <-. apply lookup_insert_eq. }
  split.
  - intros s Hcall Hs Hdecode.
    unfold ScriptFile.readAsText, ScriptFile.open.
    cbn [ScriptFile.mFilePath ScriptFile.new]. rewrite Hread.
    rewrite (Hfile _ Hcall eq_refl (or_introl eq_refl)). cbn [isString toString].
    rewrite Hdecode.
    destruct (platform io).
    + now rewrite stripCR_without_CR.
    + now rewrite stripCR_crlf.
  - intros b Hcall.
    unfold ScriptFile.readAsBinary, ScriptFile.open.
    cbn [ScriptFile.mFilePath ScriptFile.new]. rewrite Hread.
    now rewrite (Hfile _ Hcall eq_refl (or_intror eq_refl)).
Qed.

(** ** The read pipeline *)


(** C4.  When the descriptor's [read] returns without raising and the value
    is not a map view, [read] returns no model and leaves [lastError] empty;
    the other failure path of [read], a raised error, records the error's
    text. *)
Theorem read_other_value_sets_no_error this fileName sm fs v sm' :
  invokeRead invoke this fileName sm fs = (v, sm') ->
  (checkError v = false ->
   qobject_cast_EditableMap (toQObject v) = None ->
   read clone invoke describe this fileName sm fs
   = (None, setError this "", sm')
   /\ mError (setError this "") = "")
  /\ (checkError v = true ->
      (read clone invoke describe this fileName sm fs).1.1 = None
      /\ mError (read clone invoke describe this fileName sm fs).1.2
         = toString describe v).
Proof.
  intros Hcall. split.
  - intros Herr Hcast. split; [|reflexivity].
    now apply (read_other_value this fileName sm fs v sm').
  - intros Herr.
    now rewrite (read_script_error this fileName sm fs _ _ Hcall Herr).
Qed.

(** ** The validator *)

(** C6.  The validator accepts a candidate exactly when its [name] is a
    string, its [extension] is a string and [read] or [write] is callable.
    When it rejects, it raises one of its three descriptive errors through the
    script manager's error channel and returns false, and registration leaves
    the registry as it was. *)
Theorem validate_accepts_iff_well_formed (value : QJSValue Map) sm :
  ((validateMapFormatObject value sm).1 = true <->
     isString (property sm value "name") = true /\
     isString (property sm value "extension") = true /\
     (isCallable (property sm value "read") = true \/
      isCallable (property sm value "write") = true))
  /\ ((validateMapFormatObject value sm).1 = false ->
      (exists message,
          message ∈ [nameError; extensionError; functionError] /\
          (validateMapFormatObject value sm).2 = throwError message sm /\
          errors (validateMapFormatObject value sm).2 = errors sm ++ [message])
      /\ forall shortName registry,
          (registerMapFormat shortName value sm registry).2 = registry).
Proof.
  clear clone invoke describe.
  unfold registerMapFormat, validateMapFormatObject.
  destruct (isString (property sm value "name"));
    destruct (isString (property sm value "extension"));
    destruct (isCallable (property sm value "write"));
    destruct (isCallable (property sm value "read")); cbn.
  all: split; [intuition congruence|]; try discriminate.
  all: intros _; split; [|reflexivity].
  all: eexists; split; [|split; reflexivity]; set_solver.
Qed.

(** C10.  The validator checks the name first, then the extension, then the
    callables, and raises the error of the first requirement that fails and
    no other: with a name that is not a string the error is the name error,
    whatever the extension and the callables are. *)
Theorem validate_reports_first_violation (value : QJSValue Map) sm :
  (isString (property sm value "name") = false ->
   validateMapFormatObject value sm = (false, throwError nameError sm)
   /\ errors (validateMapFormatObject value sm).2 = errors sm ++ [nameError])
  /\ (isString (property sm value "name") = true ->
      isString (property sm value "extension") = false ->
      validateMapFormatObject value sm = (false, throwError extensionError sm)
      /\ errors (validateMapFormatObject value sm).2
         = errors sm ++ [extensionError])
  /\ (isString (property sm value "name") = true ->
      isString (property sm value "extension") = true ->
      isCallable (property sm value "write") = false ->
      isCallable (property sm value "read") = false ->
      validateMapFormatObject value sm = (false, throwError functionError sm)
      /\ errors (validateMapFormatObject value sm).2
         = errors sm ++ [functionError]).
Proof.
  unfold validateMapFormatObject. split; [|split].
  - intros ->. split; reflexivity.
  - intros -> ->. split; reflexivity.
  - intros -> -> -> ->. split; reflexivity.
Qed.

(** ** Queries *)

(** C7.  The capability flags contain Read exactly when the descriptor's
    [read] is callable in the current heap, and Write exactly when its [write]
    is; with only [read] callable they are exactly Read.  They are computed
    from the descriptor at each query: after any run of operations, whatever
    the scripts did to the heap, the flags are those of the descriptor as it
    is then. *)
Theorem capabilities_follow_descriptor this sm :
  (testFlag (capabilities this sm) Read
   = isCallable (property sm (mObject this) "read")
   /\ testFlag (capabilities this sm) Write
     = isCallable (property sm (mObject this) "write"))
  /\ (isCallable (property sm (mObject this) "read") = true ->
      isCallable (property sm (mObject this) "write") = false ->
      capabilities this sm = Read)
  /\ (forall ops io fs,
      let st := performAll clone invoke describe ops io (this, sm, fs) in
      testFlag (capabilities st.1.1 st.1.2) Read
      = isCallable (property st.1.2 (mObject this) "read")
      /\ testFlag (capabilities st.1.1 st.1.2) Write
        = isCallable (property st.1.2 (mObject this) "write")).
Proof.
  split; [apply capabilities_flags|split].
  - unfold capabilities. intros -> ->. reflexivity.
  - intros ops io fs st.
    rewrite <- (performAll_mObject ops io this sm fs). apply capabilities_flags.
Qed.

(** C8.  [supportsFile] holds of a path exactly when the path is some stem
    followed by "." and the descriptor's extension, character for character;
    with the extension "custom" it holds of "map.custom" and not of
    "map.customx", "map.other" or "map.CUSTOM". *)
Theorem supportsFile_iff_dot_extension this sm fileName :
  (supportsFile describe this sm fileName = true <->
   exists stem,
     fileName
     = stem +:+ "." +:+ toString describe (property sm (mObject this) "extension"))
  /\ (property sm (mObject this) "extension" = JSString "custom" ->
      supportsFile describe this sm "map.custom" = true /\
      supportsFile describe this sm "map.customx" = false /\
      supportsFile describe this sm "map.other" = false /\
      supportsFile describe this sm "map.CUSTOM" = false).
Proof.
  unfold supportsFile, prepend. split.
  - apply endsWith_true_iff.
  - intros ->. repeat split; reflexivity.
Qed.

(** ** The error state *)


End BridgeProperties.

(** * The properties at work in the sample world *)

Lemma write_failure_leaves_destination_witness :
  (write (returning (JSString "ABC")) sampleDescribe
     sampleFormat sampleMap "map.custom" 0 sampleManager commitDenied sampleFiles
   = (false, setError sampleFormat "Permission denied", sampleManager,
      sampleFiles)
   /\ mError (write (returning (JSString "ABC")) sampleDescribe
                sampleFormat sampleMap "map.custom" 0 sampleManager commitDenied
                sampleFiles).1.1.2
      = "Permission denied")
  /\ (write (returning (JSArrayBuffer [x00; xff; x10])) sampleDescribe
        sampleFormat sampleMap "map.custom" 0 sampleManager diskFull sampleFiles
      = (false, setError sampleFormat "No space left on device", sampleManager,
         sampleFiles)
      /\ mError (write (returning (JSArrayBuffer [x00; xff; x10]))
                   sampleDescribe sampleFormat sampleMap "map.custom" 0
                   sampleManager diskFull sampleFiles).1.1.2
         = "No space left on device").
Proof.
  split.
  - apply (proj1 (write_failure_leaves_destination
                    (returning (JSString "ABC")) sampleDescribe sampleFormat
                    sampleMap "map.custom" 0 sampleManager commitDenied
                    sampleFiles) (JSString "ABC") sampleManager
             "Permission denied").
    + vm_compute; reflexivity.
    + reflexivity.
    + left; reflexivity.
    + reflexivity.
    + right; split; reflexivity.
  - apply (proj1 (write_failure_leaves_destination
                    (returning (JSArrayBuffer [x00; xff; x10])) sampleDescribe
                    sampleFormat sampleMap "map.custom" 0 sampleManager diskFull
                    sampleFiles) (JSArrayBuffer [x00; xff; x10]) sampleManager
             "No space left on device").
    + vm_compute; reflexivity.
    + reflexivity.
    + right; reflexivity.
    + reflexivity.
    + left; reflexivity.
Defined.

Lemma write_rejects_other_values_witness :
  sampleFiles !! "map.custom" = Some oldContent
  /\ write (returning (JSNumber 42)) sampleDescribe
       sampleFormat sampleMap "map.custom" 0 sampleManager (noFaults Unix)
       sampleFiles
     = (false,
        setError sampleFormat
          "Invalid return value for 'write' (string or ArrayBuffer expected)",
        sampleManager, sampleFiles)
  /\ mError (write (returning (JSNumber 42)) sampleDescribe
               sampleFormat sampleMap "map.custom" 0 sampleManager
               (noFaults Unix) sampleFiles).1.1.2
     = "Invalid return value for 'write' (string or ArrayBuffer expected)".
Proof.
  split; [vm_compute; reflexivity|].
  pose proof (write_rejects_other_values (returning (JSNumber 42))
                sampleDescribe sampleFormat sampleMap "map.custom" 0
                sampleManager (noFaults Unix) sampleFiles (JSNumber 42)
                sampleManager ltac:(vm_compute; reflexivity) eq_refl eq_refl
                eq_refl) as (H1 & _ & H2 & _).
  split; [exact H1|exact H2].
Defined.



Lemma read_other_value_sets_no_error_witness :
  read sampleClone (returning (JSNumber 42)) sampleDescribe
    sampleFormat "map.custom" sampleManager sampleFiles
  = (None, setError sampleFormat "", sampleManager)
  /\ mError (setError sampleFormat "") = "".
Proof.
  apply (proj1 (read_other_value_sets_no_error sampleClone
                  (returning (JSNumber 42)) sampleDescribe sampleFormat
                  "map.custom" sampleManager sampleFiles (JSNumber 42)
                  sampleManager ltac:(vm_compute; reflexivity))).
  - reflexivity.
  - reflexivity.
Defined.

(** C5, the claim as stated fails: on Unix, with no I/O fault, the script
    returns the text "A", carriage return, line feed, "B"; [write] succeeds,
    and [readAsText], with a reader that takes the bytes as they are, reads
    back "A", line feed, "B". *)
Lemma text_with_carriage_return_not_read_back :
  invokeWrite (returning (JSString textWithCRLF))
    sampleFormat sampleMap "map.custom" 0 sampleManager sampleFiles
  = (JSString textWithCRLF, sampleManager)
  /\ write (returning (JSString textWithCRLF)) sampleDescribe
       sampleFormat sampleMap "map.custom" 0 sampleManager (noFaults Unix)
       sampleFiles
     = (true, setError sampleFormat "", sampleManager,
        <["map.custom" := String.list_byte_of_string textWithCRLF]> sampleFiles)
  /\ ScriptFile.readAsText plainReader (ScriptFile.new "map.custom")
       (<["map.custom" := String.list_byte_of_string textWithCRLF]> sampleFiles)
     = (String "A" (String LF "B"), ScriptFile.new "map.custom")
  /\ String "A" (String LF "B") <> textWithCRLF.
Proof.
  repeat split; try (vm_compute; reflexivity).
  vm_compute. discriminate.
Qed.

(** A text without carriage returns that starts with a byte order mark is
    written as it is and read back without the mark by a UTF-8 reader. *)
Example text_with_byte_order_mark_not_read_back :
  hasCR textWithBOM = false
  /\ write (returning (JSString textWithBOM)) sampleDescribe
       sampleFormat sampleMap "map.custom" 0 sampleManager (noFaults Unix)
       sampleFiles
     = (true, setError sampleFormat "", sampleManager,
        <["map.custom" := [xef; xbb; xbf; x41]]> sampleFiles)
  /\ ScriptFile.readAsText utf8Reader (ScriptFile.new "map.custom")
       (<["map.custom" := [xef; xbb; xbf; x41]]> sampleFiles)
     = ("A", ScriptFile.new "map.custom").
Proof. repeat split; vm_compute; reflexivity. Qed.

Lemma written_file_reads_back_witness :
  ScriptFile.readAsText utf8Reader (ScriptFile.new "map.custom")
    (<["map.custom" := String.list_byte_of_string "ABC"]> sampleFiles)
  = ("ABC", ScriptFile.new "map.custom")
  /\ ScriptFile.readAsBinary utf8Reader (ScriptFile.new "map.custom")
       (<["map.custom" := [x00; xff; x10]]> sampleFiles)
     = ([x00; xff; x10], ScriptFile.new "map.custom").
Proof.
  split.
  - apply (proj1 (written_file_reads_back
                    (returning (JSString "ABC")) sampleDescribe utf8Reader
                    sampleFormat sampleMap "map.custom" 0 sampleManager
                    (noFaults Windows) sampleFiles sampleManager
                    (setError sampleFormat "") sampleManager _
                    ltac:(vm_compute; reflexivity) eq_refl)).
    + vm_compute; reflexivity.
    + reflexivity.
    + vm_compute; reflexivity.
  - apply (proj2 (written_file_reads_back
                    (returning (JSArrayBuffer [x00; xff; x10])) sampleDescribe
                    utf8Reader sampleFormat sampleMap "map.custom" 0
                    sampleManager (noFaults Unix) sampleFiles sampleManager
                    (setError sampleFormat "") sampleManager _
                    ltac:(vm_compute; reflexivity) eq_refl)).
    vm_compute; reflexivity.
Defined.

Lemma validate_accepts_iff_well_formed_witness :
  (validateMapFormatObject (JSObject 1) sampleManager).1 = true
  /\ (validateMapFormatObject (JSObject 2) sampleManager).1 = false
  /\ (registerMapFormat "broken" (JSObject 2) sampleManager [sampleFormat]).2
     = [sampleFormat].
Proof.
  split; [|split].
  - apply (proj2 (proj1 (validate_accepts_iff_well_formed
                           (JSObject 1) sampleManager))).
    split; [|split; [|left]]; vm_compute; reflexivity.
  - vm_compute; reflexivity.
  - apply (proj2 (proj2 (validate_accepts_iff_well_formed
                           (JSObject 2) sampleManager)
                    ltac:(vm_compute; reflexivity))).
Defined.

Lemma validate_reports_first_violation_witness :
  validateMapFormatObject (JSObject 2) sampleManager
  = (false, throwError nameError sampleManager)
  /\ errors (validateMapFormatObject (JSObject 2) sampleManager).2 = [nameError].
Proof.
  apply (proj1 (validate_reports_first_violation (JSObject 2) sampleManager)).
  vm_compute; reflexivity.
Defined.

(** A function offered as a descriptor has a string [name] of its own and no
    [extension]: the validator gets past the name and raises the extension
    error. *)
Example validate_function_candidate :
  validateMapFormatObject (JSFunction 11) sampleManager
  = (false, throwError extensionError sampleManager).
Proof. vm_compute; reflexivity. Qed.

Lemma capabilities_follow_descriptor_witness :
  capabilities readOnlyFormat sampleManager = Read.
Proof.
  apply (proj1 (proj2 (capabilities_follow_descriptor sampleClone
                         (returning JSUndefined) sampleDescribe
                         readOnlyFormat sampleManager)));
    vm_compute; reflexivity.
Defined.

(** A script that removes the descriptor's [read] while [write] runs: the
    flags of the same adapter are Read and Write before, Write after. *)
Example capabilities_after_script_mutation :
  capabilities sampleFormat sampleManager = Z.lor Read Write
  /\ capabilities
       (performAll sampleClone forgetRead sampleDescribe
          [OpWrite sampleMap "map.custom" 0] (noFaults Unix)
          (sampleFormat, sampleManager, sampleFiles)).1.1
       (performAll sampleClone forgetRead sampleDescribe
          [OpWrite sampleMap "map.custom" 0] (noFaults Unix)
          (sampleFormat, sampleManager, sampleFiles)).1.2
     = Write.
Proof. split; vm_compute; reflexivity. Qed.

Lemma supportsFile_iff_dot_extension_witness :
  supportsFile sampleDescribe sampleFormat sampleManager "map.custom" = true /\
  supportsFile sampleDescribe sampleFormat sampleManager "map.customx" = false /\
  supportsFile sampleDescribe sampleFormat sampleManager "map.other" = false /\
  supportsFile sampleDescribe sampleFormat sampleManager "map.CUSTOM" = false.
Proof.
  apply (proj2 (supportsFile_iff_dot_extension sampleDescribe sampleFormat
                  sampleManager "map.custom")).
  vm_compute; reflexivity.
Defined.


(** * Further properties of the bridge *)

Section BridgeFurtherProperties.

Context {Map : Type}.
Variable clone : Map -> Map.
Variable invoke :
  positive -> list (QJSValue Map) -> gmap string (list byte) -> Heap Map ->
  QJSValue Map * Heap Map.
Variable describe : QJSValue Map -> string.

Implicit Types (this : ScriptedMapFormat Map) (sm : ScriptManager Map).
Implicit Types (fs : gmap string (list byte)) (io : IOEnv).
Implicit Types (v : QJSValue Map) (fileName : string).

Lemma isNull_true_None (bytes : option (list byte)) :
  isNull bytes = true -> bytes = None.
Proof. destruct bytes; [discriminate|reflexivity]. Qed.

Lemma call_not_callable (f : QJSValue Map) arguments fs sm :
  isCallable f = false -> call invoke f arguments fs sm = (JSUndefined, sm).
Proof. destruct f; try reflexivity. discriminate. Qed.

(** The value [write] stages for a script result: the text in the line ends
    of the platform, or the bytes as they are. *)
Lemma write_success_content this map fileName options sm io fs v sm1 this' sm' fs' :
  invokeWrite invoke this map fileName options sm fs = (v, sm1) ->
  write invoke describe this map fileName options sm io fs
  = (true, this', sm', fs') ->
  this' = setError this "" /\ sm' = sm1 /\
  fs' = <[fileName :=
            if isString v then
              String.list_byte_of_string
                match platform io with
                | Windows => crlf (toString describe v)
                | Unix => toString describe v
                end
            else default [] (qjsvalue_cast_QByteArray v)]> fs.
Proof.
  intros Hcall Hw.
  destruct (checkError v) eqn:Herr.
  { rewrite (write_script_error invoke describe this map fileName options sm io
               fs v sm1 Hcall Herr) in Hw. discriminate. }
  destruct (isString v) eqn:Hstr.
  - destruct (open_fault io fileName) as [e|] eqn:Hopen.
    { rewrite (write_open_failure invoke describe this map fileName options sm
                 io fs v sm1 e Hcall Herr (or_introl Hstr) Hopen) in Hw.
      discriminate. }
    destruct (write_staged invoke describe this map fileName options sm io fs
                v sm1 Hcall Herr (or_introl Hstr) Hopen) as (payload & -> & Hw').
    rewrite Hw' in Hw. rewrite Hstr in Hw.
    destruct (write_fault io fileName); [discriminate|].
    destruct (commit_fault io fileName); [discriminate|].
    now simplify_eq.
  - destruct (isNull (qjsvalue_cast_QByteArray v)) eqn:Hbin.
    { rewrite (write_invalid_value invoke describe this map fileName options sm
                 io fs v sm1 Hcall Herr Hstr (isNull_true_None _ Hbin)) in Hw.
      discriminate. }
    destruct (open_fault io fileName) as [e|] eqn:Hopen.
    { rewrite (write_open_failure invoke describe this map fileName options sm
                 io fs v sm1 e Hcall Herr (or_intror Hbin) Hopen) in Hw.
      discriminate. }
    destruct (write_staged invoke describe this map fileName options sm io fs
                v sm1 Hcall Herr (or_intror Hbin) Hopen) as (payload & -> & Hw').
    rewrite Hw' in Hw. rewrite Hstr in Hw.
    destruct (write_fault io fileName); [discriminate|].
    destruct (commit_fault io fileName); [discriminate|].
    now simplify_eq.
Qed.

(** ** read *)

(** X1.  [read] returns a model exactly when the value the script's [read]
    yields wraps a map view; the model is then the clone of the view's map,
    and [lastError] is empty. *)
Theorem read_returns_model_iff this fileName sm fs (m : Map) :
  ((read clone invoke describe this fileName sm fs).1.1 = Some m <->
   exists editable,
     (invokeRead invoke this fileName sm fs).1 = JSQObject (QEditableMap editable)
     /\ m = clone (EditableMap_map editable))
  /\ ((read clone invoke describe this fileName sm fs).1.1 = Some m ->
      mError (read clone invoke describe this fileName sm fs).1.2 = "").
Proof.
  destruct (invokeRead invoke this fileName sm fs) as [v sm'] eqn:Hcall.
  destruct (checkError v) eqn:Herr.
  { rewrite (read_script_error clone invoke describe this fileName sm fs v sm'
               Hcall Herr). cbn [fst snd].
    split; [split|]; try discriminate.
    intros (e & -> & _). discriminate. }
  destruct (qobject_cast_EditableMap (toQObject v)) as [e|] eqn:Hcast.
  - rewrite (read_map_view clone invoke describe this fileName sm fs v sm' e
               Hcall Herr Hcast). cbn [fst snd].
    assert (v = JSQObject (QEditableMap e)) as ->.
    { destruct v as [| | | | | | | |[]|]; simplify_eq/=. reflexivity. }
    split; [split|reflexivity].
    + intros [= <-]. eauto.
    + intros (e' & [= <-] & ->). reflexivity.
  - rewrite (read_other_value clone invoke describe this fileName sm fs v sm'
               Hcall Herr Hcast). cbn [fst snd].
    split; [split|]; try discriminate.
    intros (e & -> & _). discriminate.
Qed.

(** X2.  [read] does not look at the capabilities: on a descriptor whose
    [read] is not callable nothing is invoked, no model is returned, the
    script manager is as before and [lastError] is empty. *)
Theorem read_without_callable this fileName sm fs :
  isCallable (property sm (mObject this) "read") = false ->
  read clone invoke describe this fileName sm fs = (None, setError this "", sm).
Proof.
  intros Hc.
  apply (read_other_value clone invoke describe this fileName sm fs JSUndefined);
    [|reflexivity..].
  unfold invokeRead. now apply call_not_callable.
Qed.

(** ** write *)

(** X3.  [write] does not look at the capabilities either: on a descriptor
    whose [write] is not callable nothing is invoked, and the call ends as for
    an invalid return value: false, the invalid-return-value message, files
    and script manager as before. *)
Theorem write_without_callable this map fileName options sm io fs :
  isCallable (property sm (mObject this) "write") = false ->
  write invoke describe this map fileName options sm io fs
  = (false,
     setError this
       "Invalid return value for 'write' (string or ArrayBuffer expected)",
     sm, fs).
Proof.
  intros Hc.
  apply (write_invalid_value invoke describe this map fileName options sm io fs
           JSUndefined); [|reflexivity..].
  unfold invokeWrite. now apply call_not_callable.
Qed.

(** X4.  When the script's [write] raises an error, with [M] the text
    [toString()] yields for it, [write] returns false, [lastError] is [M], and
    no file is touched, whatever the I/O environment would have done. *)
Theorem write_captures_script_error
    this map fileName options sm io fs name message M sm' :
  invokeWrite invoke this map fileName options sm fs
  = (JSError name message, sm') ->
  errorText name message = M ->
  write invoke describe this map fileName options sm io fs
  = (false, setError this M, sm', fs).
Proof.
  intros Hcall <-.
  now rewrite (write_script_error invoke describe this map fileName options sm
                 io fs _ _ Hcall eq_refl).
Qed.

(** X5.  When the save cannot be opened, [lastError] is the fixed message
    "Could not open file for writing.", not the error string [e] of the
    device; [write] returns false and no file is touched. *)
Theorem write_open_failure_fixed_message
    this map fileName options sm io fs v sm' e :
  invokeWrite invoke this map fileName options sm fs = (v, sm') ->
  checkError v = false ->
  isString v = true \/ isNull (qjsvalue_cast_QByteArray v) = false ->
  open_fault io fileName = Some e ->
  write invoke describe this map fileName options sm io fs
  = (false, setError this "Could not open file for writing.", sm', fs).
Proof. apply write_open_failure. Qed.

(** X6.  [write] returns true exactly when the script's [write] yields a
    string or binary data that is not an Error, and neither opening the save,
    nor the staged write, nor the commit fails. *)
Theorem write_succeeds_iff this map fileName options sm io fs :
  (write invoke describe this map fileName options sm io fs).1.1.1 = true <->
  checkError (invokeWrite invoke this map fileName options sm fs).1 = false /\
  (isString (invokeWrite invoke this map fileName options sm fs).1 = true \/
   isNull (qjsvalue_cast_QByteArray
             (invokeWrite invoke this map fileName options sm fs).1) = false) /\
  open_fault io fileName = None /\
  write_fault io fileName = None /\
  commit_fault io fileName = None.
Proof.
  clear clone.
  destruct (invokeWrite invoke this map fileName options sm fs) as [v sm'] eqn:Hcall.
  cbn [fst].
  destruct (checkError v) eqn:Herr.
  { rewrite (write_script_error invoke describe this map fileName options sm io
               fs v sm' Hcall Herr). cbn. intuition discriminate. }
  destruct (decide (isString v = true \/
                    isNull (qjsvalue_cast_QByteArray v) = false)) as [Hvalid|Hno].
  - destruct (open_fault io fileName) as [e|] eqn:Hopen.
    { rewrite (write_open_failure invoke describe this map fileName options sm
                 io fs v sm' e Hcall Herr Hvalid Hopen). cbn.
      intuition discriminate. }
    destruct (write_staged invoke describe this map fileName options sm io fs
                v sm' Hcall Herr Hvalid Hopen) as (payload & _ & ->).
    destruct (write_fault io fileName); [cbn; intuition discriminate|].
    destruct (commit_fault io fileName); cbn; intuition discriminate.
  - assert (isString v = false) as Hstr
      by (destruct (isString v); [exfalso; auto|reflexivity]).
    assert (qjsvalue_cast_QByteArray v = None) as Hbin.
    { apply isNull_true_None.
      destruct (isNull (qjsvalue_cast_QByteArray v));
        [reflexivity|exfalso; auto]. }
    rewrite (write_invalid_value invoke describe this map fileName options sm
               io fs v sm' Hcall Herr Hstr Hbin). cbn.
    split; [discriminate|]. intros (_ & Hv & _). contradiction.
Qed.

(** X7.  A successful [write] changes the destination path and no other: the
    destination exists afterwards, every other path holds what it held (or
    is absent as it was), and [lastError] is empty. *)
Theorem write_success_changes_destination_only
    this map fileName options sm io fs this' sm' fs' :
  write invoke describe this map fileName options sm io fs
  = (true, this', sm', fs') ->
  is_Some (fs' !! fileName)
  /\ (forall other, other <> fileName -> fs' !! other = fs !! other)
  /\ mError this' = "".
Proof.
  intros Hw.
  destruct (invokeWrite invoke this map fileName options sm fs) as [v sm1] eqn:Hcall.
  destruct (write_success_content this map fileName options sm io fs v sm1
              this' sm' fs' Hcall Hw) as (-> & _ & ->).
  split; [|split].
  - rewrite lookup_insert_eq. eauto.
  - intros other Hne. now rewrite lookup_insert_ne.
  - reflexivity.
Qed.

(** X8.  What a successful [write] leaves at the destination: binary data is
    stored byte for byte on every platform; a text is stored as its own
    characters on Unix, carriage returns included, and with every line feed
    turned into carriage return, line feed on Windows.  Whatever was at the
    destination before is replaced, not appended to. *)
Theorem write_success_stores_payload
    this map fileName options sm io fs sm1 this' sm' fs' :
  write invoke describe this map fileName options sm io fs
  = (true, this', sm', fs') ->
  (forall b,
      invokeWrite invoke this map fileName options sm fs
      = (JSArrayBuffer b, sm1) ->
      fs' !! fileName = Some b)
  /\ (forall s,
      invokeWrite invoke this map fileName options sm fs = (JSString s, sm1) ->
      fs' !! fileName
      = Some (String.list_byte_of_string
                match platform io with Windows => crlf s | Unix => s end)).
Proof.
  intros Hw. split.
  - intros b Hcall.
    destruct (write_success_content this map fileName options sm io fs _ sm1
                this' sm' fs' Hcall Hw) as (_ & _ & ->).
    apply lookup_insert_eq.
  - intros s Hcall.
    destruct (write_success_content this map fileName options sm io fs _ sm1
                this' sm' fs' Hcall Hw) as (_ & _ & ->).
    apply lookup_insert_eq.
Qed.

(** X9.  The map and the options reach the script and nothing else: two calls
    of [write] whose invocations of the script agree end in the same way,
    whatever the maps and the option bits are. *)
Theorem write_depends_on_script_result_only
    this (map1 map2 : Map) fileName options1 options2 sm io fs :
  invokeWrite invoke this map1 fileName options1 sm fs
  = invokeWrite invoke this map2 fileName options2 sm fs ->
  write invoke describe this map1 fileName options1 sm io fs
  = write invoke describe this map2 fileName options2 sm io fs.
Proof.
  unfold invokeWrite, write. cbn [setError mObject]. intros ->. reflexivity.
Qed.

(** X10.  In the adapter, [read] and [write] change [lastError] and nothing
    else: the short name and the reference to the descriptor are kept. *)
Theorem read_write_change_lastError_only this map fileName options sm io fs :
  (read clone invoke describe this fileName sm fs).1.2
  = setError this (mError (read clone invoke describe this fileName sm fs).1.2)
  /\ (write invoke describe this map fileName options sm io fs).1.1.2
     = setError this
         (mError (write invoke describe this map fileName options sm io fs).1.1.2).
Proof.
  split.
  - unfold read. repeat case_match; reflexivity.
  - unfold write. repeat case_match; reflexivity.
Qed.

(** ** The validator and the queries *)

(** X11.  The validator reads the candidate and changes nothing in the heap;
    when it accepts, the script manager is exactly as before, so no error is
    raised for an accepted candidate. *)
Theorem validate_keeps_heap (value : QJSValue Map) sm :
  objects (validateMapFormatObject value sm).2 = objects sm
  /\ ((validateMapFormatObject value sm).1 = true ->
      (validateMapFormatObject value sm).2 = sm).
Proof.
  clear clone invoke describe.
  unfold validateMapFormatObject. repeat case_match; cbn; split;
    try reflexivity; discriminate.
Qed.

(** X12.  An adapter on a descriptor the validator accepts has a capability:
    its flags are not empty, they contain Read or Write. *)
Theorem validated_descriptor_has_capability this sm :
  (validateMapFormatObject (mObject this) sm).1 = true ->
  capabilities this sm <> NoCapability
  /\ (testFlag (capabilities this sm) Read = true \/
      testFlag (capabilities this sm) Write = true).
Proof.
  clear clone invoke describe.
  unfold validateMapFormatObject, capabilities.
  destruct (isString (property sm (mObject this) "name")); [|discriminate].
  destruct (isString (property sm (mObject this) "extension")); [|discriminate].
  destruct (isCallable (property sm (mObject this) "write"));
    destruct (isCallable (property sm (mObject this) "read")); cbn;
    try discriminate; intros _; split; try discriminate; auto.
Qed.

(** X13.  For a descriptor the validator accepts, with name [n] and extension
    [e], the name filter is [n], " (*.", [e], ")" without any conversion by
    the engine, and every path the filter's pattern stands for, a stem
    followed by "." and [e], is a path [supportsFile] accepts. *)
Theorem validated_filter_matches_supported_files this sm :
  (validateMapFormatObject (mObject this) sm).1 = true ->
  exists n e,
    property sm (mObject this) "name" = JSString n /\
    property sm (mObject this) "extension" = JSString e /\
    nameFilter describe this sm = n +:+ " (*." +:+ e +:+ ")" /\
    forall stem, supportsFile describe this sm (stem +:+ "." +:+ e) = true.
Proof.
  unfold validateMapFormatObject, nameFilter, supportsFile, prepend.
  destruct (property sm (mObject this) "name") as [| | | |n| | | | |];
    try discriminate.
  destruct (property sm (mObject this) "extension") as [| | | |e| | | | |];
    try discriminate.
  intros _. exists n, e. cbn [toString]. repeat split.
  intros stem. apply endsWith_true_iff. now exists stem.
Qed.

(** X14.  [supportsFile] never accepts the empty path, nor a path that is not
    longer than the extension; it accepts the bare "." followed by the
    extension, a name with an empty stem. *)
Theorem supportsFile_short_paths this sm fileName :
  supportsFile describe this sm "" = false
  /\ (supportsFile describe this sm fileName = true ->
      String.length
        (toString describe (property sm (mObject this) "extension"))
      < String.length fileName)
  /\ supportsFile describe this sm
       ("." +:+ toString describe (property sm (mObject this) "extension"))
     = true.
Proof.
  unfold supportsFile, prepend. split; [reflexivity|split].
  - intros [stem ->]%endsWith_true_iff.
    rewrite length_append. cbn [String.length]. lia.
  - apply endsWith_true_iff. now exists "".
Qed.

End BridgeFurtherProperties.

(** ** ScriptFile *)

(** X15.  A read of a file that can be opened returns its content (for
    [readAsText]: decoded, carriage returns removed) and leaves the handle as
    it was, an error recorded earlier included.  When the open fails, for a
    missing file or one that cannot be opened, the read returns the empty
    value and records the device's error string.  So an empty file and a
    failed open give the same return value. *)
Theorem ScriptFile_empty_and_missing_file
    (env : ReadEnv) (file : ScriptFile.t) (fs : gmap string (list byte)) :
  (forall bytes,
      open_denied env (ScriptFile.mFilePath file) = None ->
      fs !! ScriptFile.mFilePath file = Some bytes ->
      ScriptFile.readAsBinary env file fs = (bytes, file)
      /\ ScriptFile.readAsText env file fs
         = (stripCR (decodeText env bytes), file))
  /\ (forall err,
      open_denied env (ScriptFile.mFilePath file) = Some err \/
      (open_denied env (ScriptFile.mFilePath file) = None /\
       fs !! ScriptFile.mFilePath file = None /\
       err = "No such file or directory") ->
      ScriptFile.readAsBinary env file fs
      = ([], {| ScriptFile.mFilePath := ScriptFile.mFilePath file;
                ScriptFile.mError := err |})
      /\ ScriptFile.readAsText env file fs
         = ("", {| ScriptFile.mFilePath := ScriptFile.mFilePath file;
                   ScriptFile.mError := err |}))
  /\ (open_denied env (ScriptFile.mFilePath file) = None ->
      decodeText env [] = "" ->
      (ScriptFile.readAsBinary env file
         (<[ScriptFile.mFilePath file := []]> fs)).1
      = (ScriptFile.readAsBinary env file
           (delete (ScriptFile.mFilePath file) fs)).1
      /\ (ScriptFile.readAsText env file
            (<[ScriptFile.mFilePath file := []]> fs)).1
         = (ScriptFile.readAsText env file
              (delete (ScriptFile.mFilePath file) fs)).1).
Proof.
  unfold ScriptFile.readAsBinary, ScriptFile.readAsText, ScriptFile.open.
  split; [|split].
  - intros bytes -> ->. split; reflexivity.
  - intros err [-> | (-> & -> & ->)]; split; reflexivity.
  - intros -> Hempty. rewrite lookup_insert_eq, lookup_delete_eq. cbn.
    rewrite Hempty. split; reflexivity.
Qed.

(** * The further properties at work in the sample world *)

Lemma read_returns_model_iff_witness :
  (read sampleClone
     (returning (JSQObject (QEditableMap {| EditableMap_map := sampleMap |})))
     sampleDescribe sampleFormat "map.custom" sampleManager sampleFiles).1.1
  = Some sampleMap.
Proof.
  apply (proj2 (proj1 (read_returns_model_iff sampleClone
                         (returning (JSQObject (QEditableMap
                                       {| EditableMap_map := sampleMap |})))
                         sampleDescribe sampleFormat "map.custom" sampleManager
                         sampleFiles sampleMap))).
  exists {| EditableMap_map := sampleMap |}. split; vm_compute; reflexivity.
Defined.

Lemma read_without_callable_witness :
  read sampleClone (returning (JSError "Error" "never called")) sampleDescribe
    {| mShortName := "empty"; mObject := JSObject 2; mError := "stale" |}
    "map.custom" sampleManager sampleFiles
  = (None, {| mShortName := "empty"; mObject := JSObject 2; mError := "" |},
     sampleManager).
Proof.
  apply (read_without_callable sampleClone (returning (JSError "Error" "never called"))
           sampleDescribe
           {| mShortName := "empty"; mObject := JSObject 2; mError := "stale" |}
           "map.custom" sampleManager sampleFiles).
  vm_compute; reflexivity.
Defined.

Lemma write_without_callable_witness :
  write (returning (JSString "never called")) sampleDescribe
    readOnlyFormat sampleMap "map.custom" 0 sampleManager (noFaults Unix)
    sampleFiles
  = (false,
     setError readOnlyFormat
       "Invalid return value for 'write' (string or ArrayBuffer expected)",
     sampleManager, sampleFiles).
Proof.
  apply (write_without_callable (returning (JSString "never called"))
           sampleDescribe readOnlyFormat sampleMap "map.custom" 0 sampleManager
           (noFaults Unix) sampleFiles).
  vm_compute; reflexivity.
Defined.

Lemma write_captures_script_error_witness :
  write (returning (JSError "Error" "boom")) sampleDescribe
    sampleFormat sampleMap "map.custom" 0 sampleManager (noFaults Unix)
    sampleFiles
  = (false, setError sampleFormat "Error: boom", sampleManager, sampleFiles).
Proof.
  apply (write_captures_script_error (returning (JSError "Error" "boom"))
           sampleDescribe sampleFormat sampleMap "map.custom" 0 sampleManager
           (noFaults Unix) sampleFiles "Error" "boom" "Error: boom"
           sampleManager).
  - vm_compute; reflexivity.
  - reflexivity.
Defined.

Lemma write_open_failure_fixed_message_witness :
  write (returning (JSString "ABC")) sampleDescribe
    sampleFormat sampleMap "map.custom" 0 sampleManager
    {| platform := Unix;
       open_fault := fun _ => Some "Permission denied";
       write_fault := fun _ => None;
       commit_fault := fun _ => None |}
    sampleFiles
  = (false, setError sampleFormat "Could not open file for writing.",
     sampleManager, sampleFiles).
Proof.
  apply (write_open_failure_fixed_message (returning (JSString "ABC"))
           sampleDescribe sampleFormat sampleMap "map.custom" 0 sampleManager
           {| platform := Unix;
              open_fault := fun _ => Some "Permission denied";
              write_fault := fun _ => None;
              commit_fault := fun _ => None |}
           sampleFiles (JSString "ABC") sampleManager "Permission denied").
  - vm_compute; reflexivity.
  - reflexivity.
  - left; reflexivity.
  - reflexivity.
Defined.

Lemma write_succeeds_iff_witness :
  (write (returning (JSString "ABC")) sampleDescribe
     sampleFormat sampleMap "map.custom" 0 sampleManager (noFaults Windows)
     sampleFiles).1.1.1 = true.
Proof.
  apply (proj2 (write_succeeds_iff (returning (JSString "ABC")) sampleDescribe
                  sampleFormat sampleMap "map.custom" 0 sampleManager
                  (noFaults Windows) sampleFiles)).
  split; [|split; [left|repeat split]]; vm_compute; reflexivity.
Defined.

Lemma write_success_changes_destination_only_witness :
  is_Some ((<["new.custom" := String.list_byte_of_string "ABC"]> sampleFiles)
             !! "new.custom")
  /\ (forall other, other <> "new.custom" ->
        (<["new.custom" := String.list_byte_of_string "ABC"]> sampleFiles)
          !! other
        = sampleFiles !! other)
  /\ mError (setError sampleFormat "") = "".
Proof.
  apply (write_success_changes_destination_only (returning (JSString "ABC"))
           sampleDescribe sampleFormat sampleMap "new.custom" 0 sampleManager
           (noFaults Unix) sampleFiles (setError sampleFormat "") sampleManager).
  vm_compute; reflexivity.
Defined.

Lemma write_success_stores_payload_witness :
  (<["map.custom" := String.list_byte_of_string textWithCRLF]> sampleFiles)
    !! "map.custom"
  = Some [x41; x0d; x0a; x42]
  /\ (<["map.custom" :=
          String.list_byte_of_string (crlf (String "A" (String LF "B")))]>
        sampleFiles) !! "map.custom"
     = Some [x41; x0d; x0a; x42].
Proof.
  split.
  - apply (proj2 (write_success_stores_payload
                    (returning (JSString textWithCRLF)) sampleDescribe
                    sampleFormat sampleMap "map.custom" 0 sampleManager
                    (noFaults Unix) sampleFiles sampleManager
                    (setError sampleFormat "") sampleManager _
                    ltac:(vm_compute; reflexivity)) textWithCRLF).
    vm_compute; reflexivity.
  - apply (proj2 (write_success_stores_payload
                    (returning (JSString (String "A" (String LF "B"))))
                    sampleDescribe sampleFormat sampleMap "map.custom" 0
                    sampleManager (noFaults Windows) sampleFiles sampleManager
                    (setError sampleFormat "") sampleManager _
                    ltac:(vm_compute; reflexivity))
             (String "A" (String LF "B"))).
    vm_compute; reflexivity.
Defined.

Lemma write_depends_on_script_result_only_witness :
  write (returning (JSString "ABC")) sampleDescribe
    sampleFormat sampleMap "map.custom" 0 sampleManager (noFaults Unix)
    sampleFiles
  = write (returning (JSString "ABC")) sampleDescribe
      sampleFormat [] "map.custom" 7 sampleManager (noFaults Unix) sampleFiles.
Proof.
  apply (write_depends_on_script_result_only (returning (JSString "ABC"))
           sampleDescribe sampleFormat sampleMap [] "map.custom" 0 7
           sampleManager (noFaults Unix) sampleFiles).
  vm_compute; reflexivity.
Defined.

Lemma validate_keeps_heap_witness :
  (validateMapFormatObject (JSObject 1) sampleManager).2 = sampleManager.
Proof.
  apply (proj2 (validate_keeps_heap (JSObject 1) sampleManager)).
  vm_compute; reflexivity.
Defined.

Lemma validated_descriptor_has_capability_witness :
  capabilities readOnlyFormat sampleManager <> NoCapability
  /\ (testFlag (capabilities readOnlyFormat sampleManager) Read = true \/
      testFlag (capabilities readOnlyFormat sampleManager) Write = true).
Proof.
  apply (validated_descriptor_has_capability readOnlyFormat sampleManager).
  vm_compute; reflexivity.
Defined.

Lemma validated_filter_matches_supported_files_witness :
  exists n e,
    property sampleManager (mObject sampleFormat) "name" = JSString n /\
    property sampleManager (mObject sampleFormat) "extension" = JSString e /\
    nameFilter sampleDescribe sampleFormat sampleManager
    = n +:+ " (*." +:+ e +:+ ")" /\
    forall stem,
      supportsFile sampleDescribe sampleFormat sampleManager
        (stem +:+ "." +:+ e) = true.
Proof.
  apply (validated_filter_matches_supported_files sampleDescribe sampleFormat
           sampleManager).
  vm_compute; reflexivity.
Defined.

Lemma supportsFile_short_paths_witness :
  String.length
    (toString sampleDescribe
       (property sampleManager (mObject sampleFormat) "extension"))
  < String.length "map.custom".
Proof.
  apply (proj1 (proj2 (supportsFile_short_paths sampleDescribe sampleFormat
                         sampleManager "map.custom"))).
  vm_compute; reflexivity.
Defined.

Lemma ScriptFile_empty_and_missing_file_witness :
  (ScriptFile.readAsBinary plainReader
     {| ScriptFile.mFilePath := "map.custom"; ScriptFile.mError := "earlier" |}
     sampleFiles
   = (oldContent,
      {| ScriptFile.mFilePath := "map.custom"; ScriptFile.mError := "earlier" |})
   /\ ScriptFile.readAsText plainReader
        {| ScriptFile.mFilePath := "map.custom"; ScriptFile.mError := "earlier" |}
        sampleFiles
      = ("old",
         {| ScriptFile.mFilePath := "map.custom";
            ScriptFile.mError := "earlier" |}))
  /\ (ScriptFile.readAsBinary deniedReader (ScriptFile.new "map.custom")
        sampleFiles
      = ([], {| ScriptFile.mFilePath := "map.custom";
                ScriptFile.mError := "Permission denied" |})
      /\ ScriptFile.readAsText deniedReader (ScriptFile.new "map.custom")
           sampleFiles
         = ("", {| ScriptFile.mFilePath := "map.custom";
                   ScriptFile.mError := "Permission denied" |})).
Proof.
  split.
  - apply (proj1 (ScriptFile_empty_and_missing_file plainReader
                    {| ScriptFile.mFilePath := "map.custom";
                       ScriptFile.mError := "earlier" |} sampleFiles)
             oldContent); vm_compute; reflexivity.
  - apply (proj1 (proj2 (ScriptFile_empty_and_missing_file deniedReader
                           (ScriptFile.new "map.custom") sampleFiles))
             "Permission denied").
    left; vm_compute; reflexivity.
Defined.
